(** * raven-powerctl: reboot / poweroff / halt through the Linux reboot syscall

    Shallow embedding of [tools/raven-powerctl/powerctl.c].

    - A C string is modelled by the [string] of the bytes in front of its
      terminator; a pointer into a C string is the suffix that starts there.
    - [argv] is a list of optional strings ([None] is the null pointer) and
      [argc] is its length.
    - [sync], the reboot syscall and [fprintf] are events appended to a trace;
      the kernel's answer to the syscall and libc's [strerror] are parameters
      of the section that holds the effectful code. *)

From Stdlib Require Import String Ascii ZArith List Bool Lia.
From ExtLib Require Import Structures.Monad Structures.MonadState.
From ExtLib Require Import Data.Monads.StateMonad.
Import ListNotations.
Import MonadNotation.

Local Open Scope string_scope.
Local Open Scope Z_scope.
Local Open Scope monad_scope.

(** ** libc on strings *)

Module Libc.

(** [strcmp(a, b)]: the C standard fixes the sign of the result only; the
    order is the lexicographic order on unsigned bytes. *)
Definition strcmp (a b : string) : Z :=
  match String.compare a b with
  | Eq => 0
  | Lt => -1
  | Gt => 1
  end.

(** [strrchr(s, c)] for a byte [c] other than the terminator: the pointer
    to the last occurrence of [c] in [s], or the null pointer. *)
Fixpoint strrchr (s : string) (c : ascii) : option string :=
  match s with
  | EmptyString => None
  | String a s' =>
      match strrchr s' c with
      | Some p => Some p
      | None => if Ascii.eqb a c then Some s else None
      end
  end.

(** [p + 1] for a pointer [p] that does not point at the terminator. *)
Definition ptr_succ (p : string) : string :=
  match p with
  | EmptyString => EmptyString
  | String _ rest => rest
  end.

(** [p[0]]: the first byte, which is the terminator for the empty string. *)
Definition deref (p : string) : ascii :=
  match p with
  | EmptyString => Ascii.zero
  | String a _ => a
  end.

(** Whether the byte [c] occurs in [s]. *)
Fixpoint mem_char (c : ascii) (s : string) : bool :=
  match s with
  | EmptyString => false
  | String a s' => Ascii.eqb a c || mem_char c s'
  end.

End Libc.
Import Libc.

(** ** Constants of the system headers *)

(** [<linux/reboot.h>] *)
Definition LINUX_REBOOT_MAGIC1 : Z := 0xfee1dead.
Definition LINUX_REBOOT_MAGIC2 : Z := 672274793.
Definition LINUX_REBOOT_CMD_RESTART : Z := 0x01234567.
Definition LINUX_REBOOT_CMD_HALT : Z := 0xCDEF0123.
Definition LINUX_REBOOT_CMD_POWER_OFF : Z := 0x4321FEDC.

(** [<errno.h>] *)
Definition EPERM : Z := 1.

(** Conversion to a 32-bit [int], as in [int reboot_cmd = LINUX_REBOOT_CMD_HALT]. *)
Definition to_int (z : Z) : Z := (z + 2 ^ 31) mod 2 ^ 32 - 2 ^ 31.

(** ** The pure part of [powerctl.c] *)

(** [static const char *base_name(const char *path)] *)
Definition base_name (path : string) : string :=
  match strrchr path "/" with
  | Some slash => ptr_succ slash
  | None => path
  end.

Definition argv_t := list (option string).

Definition argc (argv : argv_t) : Z := Z.of_nat (length argv).

(** [argv[i]] *)
Definition arg (argv : argv_t) (i : nat) : option string := nth i argv None.

(** [main], line 33: [(argc > 0 && argv[0]) ? argv[0] : "raven-powerctl"]. *)
Definition main_argv0 (argv : argv_t) : string :=
  if 0 <? argc argv then
    match arg argv 0 with
    | Some a0 => a0
    | None => "raven-powerctl"
    end
  else "raven-powerctl".

(** [main], line 34. *)
Definition main_name (argv : argv_t) : string := base_name (main_argv0 argv).

(** [main], lines 35-39: the command name that is matched. *)
Definition main_cmd (argv : argv_t) : string :=
  if 2 <=? argc argv then
    match arg argv 1 with
    | Some a1 => if negb (Ascii.eqb (deref a1) "-") then a1 else main_name argv
    | None => main_name argv
    end
  else main_name argv.

(** The way out of the [if]/[else if] chain of [main], lines 41-54. *)
Inductive dispatch : Type :=
| Action (reboot_cmd : Z)
| Help
| UsageError.

(** [main], lines 41-54, up to the calls to [usage]. *)
Definition main_dispatch (cmd : string) : dispatch :=
  if strcmp cmd "reboot" =? 0 then Action (to_int LINUX_REBOOT_CMD_RESTART)
  else if strcmp cmd "poweroff" =? 0 then Action (to_int LINUX_REBOOT_CMD_POWER_OFF)
  else if strcmp cmd "halt" =? 0 then Action (to_int LINUX_REBOOT_CMD_HALT)
  else if (strcmp cmd "-h" =? 0) || (strcmp cmd "--help" =? 0) then Help
  else UsageError.

(** The command resolver: from the argument vector to the way out. *)
Definition resolve (argv : argv_t) : dispatch := main_dispatch (main_cmd argv).

(** The three names that select an action, with their codes. *)
Definition action_names : list (string * Z) :=
  [ ("reboot", to_int LINUX_REBOOT_CMD_RESTART);
    ("poweroff", to_int LINUX_REBOOT_CMD_POWER_OFF);
    ("halt", to_int LINUX_REBOOT_CMD_HALT) ].

Definition is_action_name (cmd : string) : Prop :=
  cmd = "reboot" \/ cmd = "poweroff" \/ cmd = "halt".

Definition is_help_name (cmd : string) : Prop :=
  cmd = "-h" \/ cmd = "--help".

(** ** The outside world *)

Inductive stream : Type := stdout | stderr.

(** What the process does to the outside world, in program order. *)
Inductive event : Type :=
| Sync
| SysReboot (magic1 magic2 cmd arg : Z)
| Fprintf (out : stream) (text : string).

Record world : Type := mkWorld { trace : list event; errno : Z }.

(** At program start nothing has happened and [errno] is zero. *)
Definition init_world : world := {| trace := []; errno := 0 |}.

(** The kernel's answer to a system call, as [syscall(2)] hands it over:
    either a return value with [errno] untouched, or the return value -1
    with the error number stored in [errno]. *)
Inductive sys_result : Type :=
| SysReturn (rc : Z)
| SysError (e : Z).

Definition nl : string := String "010"%char EmptyString.

Definition emit (e : event) : state world unit :=
  w <- get ;;
  put {| trace := (trace w ++ [e])%list; errno := errno w |}.

Definition set_errno (e : Z) : state world unit :=
  w <- get ;;
  put {| trace := trace w; errno := e |}.

Definition get_errno : state world Z :=
  w <- get ;;
  ret (errno w).

(** [sync()] *)
Definition sync : state world unit := emit Sync.

(** [fprintf(out, ...)] with the formatted [text]. *)
Definition fprintf (out : stream) (text : string) : state world unit :=
  emit (Fprintf out text).

(** ** The effectful part of [powerctl.c] *)

Section Powerctl.

Variable kernel_reboot : Z -> Z -> Z -> Z -> sys_result.
Variable strerror : Z -> string.

(** [syscall(SYS_reboot, magic1, magic2, cmd, arg)] *)
Definition syscall_reboot (magic1 magic2 cmd a : Z) : state world Z :=
  emit (SysReboot magic1 magic2 cmd a) ;;
  match kernel_reboot magic1 magic2 cmd a with
  | SysReturn rc => ret rc
  | SysError e => set_errno e ;; ret (-1)
  end.

(** [static int do_reboot(int cmd)] *)
Definition do_reboot (cmd : Z) : state world Z :=
  sync ;;
  sync ;;
  rc <- syscall_reboot LINUX_REBOOT_MAGIC1 LINUX_REBOOT_MAGIC2 cmd 0 ;;
  if rc =? 0 then ret 0 else ret (-1).

(** The text that [usage] formats. *)
Definition usage_text (argv0 : string) : string :=
  "Usage: " ++ argv0 ++ " [reboot|poweroff|halt]" ++ nl ++
  "Directly invokes the Linux reboot syscall (works without systemd)." ++ nl.

(** [static void usage(FILE *out, const char *argv0)] *)
Definition usage (out : stream) (argv0 : string) : state world unit :=
  fprintf out (usage_text argv0).

(** [int main(int argc, char **argv)]: the exit status. *)
Definition main (argv : argv_t) : state world Z :=
  let argv0 := main_argv0 argv in
  let name := main_name argv in
  let cmd := main_cmd argv in
  match main_dispatch cmd with
  | Help => usage stdout argv0 ;; ret 0
  | UsageError => usage stderr argv0 ;; ret 2
  | Action reboot_cmd =>
      r <- do_reboot reboot_cmd ;;
      if r =? 0 then ret 0
      else
        saved <- get_errno ;;
        fprintf stderr (name ++ ": reboot syscall failed: " ++ strerror saved ++ nl) ;;
        (if saved =? EPERM
         then fprintf stderr (name ++ ": are you root?" ++ nl)
         else ret tt) ;;
        ret 1
  end.

(** A whole run of the program: exit status and final world. *)
Definition run (argv : argv_t) : Z * world := runState (main argv) init_world.

Definition exit_status (argv : argv_t) : Z := fst (run argv).

Definition events (argv : argv_t) : list event := trace (snd (run argv)).

End Powerctl.

(** What was written to one stream, in order. *)
Definition written (out : stream) (t : list event) : list string :=
  flat_map (fun e =>
              match e with
              | Fprintf stdout text => match out with stdout => [text] | stderr => [] end
              | Fprintf stderr text => match out with stderr => [text] | stdout => [] end
              | _ => []
              end) t.

(** An event that touches the system: a flush or the reboot syscall. *)
Definition is_power_event (e : event) : bool :=
  match e with
  | Sync | SysReboot _ _ _ _ => true
  | Fprintf _ _ => false
  end.

(** The reboot request that [do_reboot] issues for the code [c]. *)
Definition reboot_call (c : Z) : event :=
  SysReboot LINUX_REBOOT_MAGIC1 LINUX_REBOOT_MAGIC2 c 0.

(** The value that [syscall] returns for an answer of the kernel. *)
Definition sys_rc (r : sys_result) : Z :=
  match r with
  | SysReturn rc => rc
  | SysError _ => -1
  end.

(** The two lines that [main] may print after a failed call. *)
Definition failure_text (name : string) (description : string) : string :=
  name ++ ": reboot syscall failed: " ++ description ++ nl.

Definition root_hint (name : string) : string :=
  name ++ ": are you root?" ++ nl.

(** A kernel that refuses every reboot request with the same error. *)
Definition kernel_fails (e : Z) : Z -> Z -> Z -> Z -> sys_result :=
  fun _ _ _ _ => SysError e.

(** A kernel whose reboot syscall returns zero. *)
Definition kernel_ok : Z -> Z -> Z -> Z -> sys_result :=
  fun _ _ _ _ => SysReturn 0.

(** A stand-in for libc's table of error descriptions. *)
Definition strerror_linux (e : Z) : string :=
  if e =? 0 then "Success"
  else if e =? 1 then "Operation not permitted"
  else if e =? 22 then "Invalid argument"
  else "Unknown error".

Example run_poweroff_ok :
  run kernel_ok strerror_linux [Some "/sbin/poweroff"] =
  (0, {| trace := [Sync; Sync;
                   SysReboot LINUX_REBOOT_MAGIC1 LINUX_REBOOT_MAGIC2
                     (to_int LINUX_REBOOT_CMD_POWER_OFF) 0];
         errno := 0 |}).
Proof. reflexivity. Qed.

(** ** Facts about the libc model *)

Lemma compare_refl (s : string) : String.compare s s = Eq.
Proof.
  induction s as [|a s IH]; simpl; [reflexivity|].
  unfold Ascii.compare. rewrite N.compare_refl. exact IH.
Qed.

Lemma strcmp_zero_iff (a b : string) : strcmp a b = 0 <-> a = b.
Proof.
  unfold strcmp. split.
  - destruct (String.compare a b) eqn:E; try discriminate.
    intros _. now apply String.compare_eq_iff.
  - intros ->. now rewrite compare_refl.
Qed.

Lemma strcmp_eqb (a b : string) : (strcmp a b =? 0) = String.eqb a b.
Proof.
  destruct (String.eqb_spec a b) as [->|N].
  - apply Z.eqb_eq. now apply strcmp_zero_iff.
  - apply Z.eqb_neq. intros H. now apply strcmp_zero_iff in H.
Qed.

Lemma strrchr_none (c : ascii) (s : string) :
  strrchr s c = None <-> mem_char c s = false.
Proof.
  induction s as [|a s IH]; simpl; [tauto|].
  destruct (strrchr s c) as [p|].
  - split; [discriminate|]. intros H. apply orb_false_iff in H.
    destruct H as [_ H]. apply IH in H. discriminate.
  - assert (M : mem_char c s = false) by now apply IH.
    rewrite M, orb_false_r. destruct (Ascii.eqb a c); split; congruence.
Qed.

Lemma strrchr_some (c : ascii) (s p : string) :
  strrchr s c = Some p ->
  exists pre, s = pre ++ p /\ deref p = c /\ p <> "" /\
              mem_char c (ptr_succ p) = false.
Proof.
  revert p. induction s as [|a s IH]; simpl; intros p H; [discriminate|].
  destruct (strrchr s c) as [q|] eqn:E.
  - inversion H; subst q. destruct (IH p eq_refl) as (pre & -> & D & N & M).
    exists (String a pre). auto.
  - destruct (Ascii.eqb_spec a c) as [->|]; [|discriminate].
    inversion H; subst p. exists "". simpl. repeat split; try discriminate.
    now apply strrchr_none.
Qed.

Lemma mem_char_app (c : ascii) (s t : string) :
  mem_char c (s ++ t) = mem_char c s || mem_char c t.
Proof.
  induction s as [|a s IH]; simpl; [reflexivity|].
  now rewrite IH, orb_assoc.
Qed.

Lemma strrchr_app_last (c : ascii) (pre suf : string) :
  mem_char c suf = false ->
  strrchr (pre ++ String c suf) c = Some (String c suf).
Proof.
  intros M. induction pre as [|a pre IH]; simpl.
  - apply strrchr_none in M. now rewrite M, Ascii.eqb_refl.
  - now rewrite IH.
Qed.

(** ** Facts about the pure part *)

Lemma base_name_no_slash (path : string) :
  mem_char "/" path = false -> base_name path = path.
Proof.
  intros M. unfold base_name. apply strrchr_none in M. now rewrite M.
Qed.

Lemma base_name_after_last_slash (pre suf : string) :
  mem_char "/" suf = false -> base_name (pre ++ "/" ++ suf) = suf.
Proof.
  intros M. unfold base_name. simpl.
  now rewrite (strrchr_app_last "/" pre suf M).
Qed.

Lemma base_name_split (path : string) :
  mem_char "/" path = true ->
  exists pre, path = pre ++ "/" ++ base_name path /\
              mem_char "/" (base_name path) = false.
Proof.
  intros M. unfold base_name.
  destruct (strrchr path "/") as [p|] eqn:E.
  - destruct (strrchr_some _ _ _ E) as (pre & -> & D & N & F).
    exists pre. split; [|exact F].
    destruct p as [|a p]; [congruence|]. simpl in D. subst a. reflexivity.
  - apply strrchr_none in E. congruence.
Qed.

Lemma main_dispatch_eqb (cmd : string) :
  main_dispatch cmd =
  if String.eqb cmd "reboot" then Action (to_int LINUX_REBOOT_CMD_RESTART)
  else if String.eqb cmd "poweroff" then Action (to_int LINUX_REBOOT_CMD_POWER_OFF)
  else if String.eqb cmd "halt" then Action (to_int LINUX_REBOOT_CMD_HALT)
  else if String.eqb cmd "-h" || String.eqb cmd "--help" then Help
  else UsageError.
Proof. unfold main_dispatch. now rewrite !strcmp_eqb. Qed.

Ltac dispatch_cases cmd :=
  rewrite ?main_dispatch_eqb in *;
  destruct (String.eqb_spec cmd "reboot");
  [|destruct (String.eqb_spec cmd "poweroff");
    [|destruct (String.eqb_spec cmd "halt");
      [|destruct (String.eqb_spec cmd "-h");
        [|destruct (String.eqb_spec cmd "--help")]]]];
  simpl in *.

Lemma main_dispatch_action (cmd : string) (c : Z) :
  main_dispatch cmd = Action c <-> In (cmd, c) action_names.
Proof.
  unfold action_names. simpl. split.
  - intros H. dispatch_cases cmd; try discriminate; inversion H; subst; auto.
  - intros [H|[H|[H|[]]]]; inversion H; subst; reflexivity.
Qed.

Lemma main_dispatch_help (cmd : string) :
  main_dispatch cmd = Help <-> is_help_name cmd.
Proof.
  unfold is_help_name. split.
  - intros H. dispatch_cases cmd; try discriminate; auto.
  - intros [->| ->]; reflexivity.
Qed.

Lemma main_dispatch_usage (cmd : string) :
  main_dispatch cmd = UsageError <-> ~ is_action_name cmd /\ ~ is_help_name cmd.
Proof.
  unfold is_action_name, is_help_name. split.
  - intros H. dispatch_cases cmd; try discriminate; intuition congruence.
  - intros [A B]. dispatch_cases cmd; tauto.
Qed.

(** ** Facts about the effectful part *)

Section Runs.

Variable kernel_reboot : Z -> Z -> Z -> Z -> sys_result.
Variable strerror : Z -> string.

Lemma do_reboot_run (cmd : Z) (w : world) :
  runState (do_reboot kernel_reboot cmd) w =
  let t := (trace w ++ [Sync; Sync; reboot_call cmd])%list in
  match kernel_reboot LINUX_REBOOT_MAGIC1 LINUX_REBOOT_MAGIC2 cmd 0 with
  | SysReturn rc =>
      (if rc =? 0 then 0 else -1, {| trace := t; errno := errno w |})
  | SysError e => (-1, {| trace := t; errno := e |})
  end.
Proof.
  unfold do_reboot, syscall_reboot, reboot_call. cbn.
  rewrite <- !app_assoc. cbn.
  destruct (kernel_reboot _ _ cmd 0) as [rc|e]; cbn; [|reflexivity].
  destruct (rc =? 0); reflexivity.
Qed.

(** The whole run, by the way out of the dispatch and the kernel's answer. *)
Lemma run_cases (argv : argv_t) :
  run kernel_reboot strerror argv =
  let argv0 := main_argv0 argv in
  let name := main_name argv in
  match resolve argv with
  | Help => (0, {| trace := [Fprintf stdout (usage_text argv0)]; errno := 0 |})
  | UsageError => (2, {| trace := [Fprintf stderr (usage_text argv0)]; errno := 0 |})
  | Action c =>
      match kernel_reboot LINUX_REBOOT_MAGIC1 LINUX_REBOOT_MAGIC2 c 0 with
      | SysReturn rc =>
          if rc =? 0
          then (0, {| trace := [Sync; Sync; reboot_call c]; errno := 0 |})
          else (1, {| trace := [Sync; Sync; reboot_call c;
                                Fprintf stderr (failure_text name (strerror 0))];
                      errno := 0 |})
      | SysError e =>
          (1, {| trace := [Sync; Sync; reboot_call c;
                           Fprintf stderr (failure_text name (strerror e))]
                          ++ (if e =? EPERM
                              then [Fprintf stderr (root_hint name)]
                              else []);
                 errno := e |})
      end
  end.
Proof.
  unfold run, main, resolve, reboot_call.
  destruct (main_dispatch (main_cmd argv)) as [c| |]; try reflexivity.
  cbn. unfold do_reboot, syscall_reboot. cbn.
  destruct (kernel_reboot _ _ c 0) as [rc|e]; cbn.
  - destruct (rc =? 0); reflexivity.
  - destruct (e =? EPERM); reflexivity.
Qed.

End Runs.

(** ** The command resolver *)

Lemma arg_short (argv : argv_t) (i : nat) :
  (length argv <= i)%nat -> arg argv i = None.
Proof. intros H. unfold arg. now apply nth_overflow. Qed.

Lemma arg_some_length (argv : argv_t) (i : nat) (a : string) :
  arg argv i = Some a -> (i < length argv)%nat.
Proof.
  intros H. destruct (Nat.lt_ge_cases i (length argv)) as [L|G]; [exact L|].
  rewrite (arg_short argv i G) in H. discriminate.
Qed.

Lemma main_cmd_first_argument (argv : argv_t) (a1 : string) :
  arg argv 1 = Some a1 -> deref a1 <> "-"%char -> main_cmd argv = a1.
Proof.
  intros A D. unfold main_cmd, argc.
  apply arg_some_length in A as L.
  destruct (Z.leb_spec 2 (Z.of_nat (length argv))); [|lia].
  rewrite A. destruct (Ascii.eqb_spec (deref a1) "-"); [contradiction|reflexivity].
Qed.

Lemma main_cmd_dash_argument (argv : argv_t) (a1 : string) :
  arg argv 1 = Some a1 -> deref a1 = "-"%char -> main_cmd argv = main_name argv.
Proof.
  intros A D. unfold main_cmd. rewrite A, D. cbn.
  now destruct (2 <=? argc argv).
Qed.

Lemma main_cmd_no_argument (argv : argv_t) :
  arg argv 1 = None -> main_cmd argv = main_name argv.
Proof.
  intros A. unfold main_cmd. rewrite A. now destruct (2 <=? argc argv).
Qed.

Lemma action_name_no_dash (a : string) : is_action_name a -> deref a <> "-"%char.
Proof. intros [->|[->| ->]]; discriminate. Qed.

Lemma help_name_dash (a : string) : is_help_name a -> deref a = "-"%char.
Proof. intros [->| ->]; reflexivity. Qed.

(** C8: for every path, [base_name] returns the part after the last slash
    when the path has a slash, and the whole path when it has none. *)
Theorem base_name_last_component (path : string) :
  (mem_char "/" path = true ->
   exists pre, path = pre ++ "/" ++ base_name path /\
               mem_char "/" (base_name path) = false) /\
  (forall pre suf, path = pre ++ "/" ++ suf -> mem_char "/" suf = false ->
                   base_name path = suf) /\
  (mem_char "/" path = false -> base_name path = path).
Proof.
  split; [apply base_name_split|]. split.
  - intros pre suf -> M. now apply base_name_after_last_slash.
  - apply base_name_no_slash.
Qed.

Lemma base_name_last_component_witness :
  (exists pre, "/usr/sbin/reboot" = pre ++ "/" ++ base_name "/usr/sbin/reboot" /\
               mem_char "/" (base_name "/usr/sbin/reboot") = false) /\
  base_name "/usr/sbin/reboot" = "reboot" /\
  base_name "halt" = "halt".
Proof.
  split; [|split].
  - apply (proj1 (base_name_last_component "/usr/sbin/reboot")). reflexivity.
  - apply (proj1 (proj2 (base_name_last_component "/usr/sbin/reboot")) "/usr/sbin");
      reflexivity.
  - apply (proj2 (proj2 (base_name_last_component "halt"))). reflexivity.
Defined.

(** C5: a first argument that is present and does not begin with a dash is
    the requested name, whatever the invocation name; in every other case
    the requested name is the base name of argument zero. *)
Theorem main_cmd_source (argv : argv_t) :
  (forall a1, arg argv 1 = Some a1 -> deref a1 <> "-"%char ->
              main_cmd argv = a1) /\
  (((length argv < 2)%nat \/ arg argv 1 = None \/
    (exists a1, arg argv 1 = Some a1 /\ deref a1 = "-"%char)) ->
   main_cmd argv = base_name (main_argv0 argv)) /\
  (forall a0 rest, argv = Some a0 :: rest -> main_argv0 argv = a0).
Proof.
  split; [|split].
  - intros a1. apply main_cmd_first_argument.
  - intros [L|[N|(a1 & A & D)]].
    + apply main_cmd_no_argument, arg_short. lia.
    + now apply main_cmd_no_argument.
    + now apply (main_cmd_dash_argument argv a1).
  - intros a0 rest ->. reflexivity.
Qed.

Lemma main_cmd_source_witness :
  main_cmd [Some "/sbin/reboot"; Some "halt"] = "halt" /\
  main_cmd [Some "/sbin/reboot"] = base_name (main_argv0 [Some "/sbin/reboot"]) /\
  main_cmd [Some "/sbin/reboot"; Some "-f"] = "reboot" /\
  main_argv0 [Some "/sbin/reboot"] = "/sbin/reboot".
Proof.
  split; [|split; [|split]].
  - apply (proj1 (main_cmd_source [Some "/sbin/reboot"; Some "halt"]) "halt");
      [reflexivity | discriminate].
  - apply (proj1 (proj2 (main_cmd_source [Some "/sbin/reboot"]))).
    left. simpl. lia.
  - apply (proj1 (proj2 (main_cmd_source [Some "/sbin/reboot"; Some "-f"]))).
    right. right. exists "-f". split; reflexivity.
  - apply (proj2 (proj2 (main_cmd_source [Some "/sbin/reboot"])) "/sbin/reboot" []).
    reflexivity.
Defined.

(** C4: the resolved name selects the restart, power-off or halt code exactly
    when it is [reboot], [poweroff] or [halt] (case-sensitive), whether it
    came from the first argument or from the base name of the invocation
    path, and no other name selects an action. *)
Theorem resolve_action_names (argv : argv_t) :
  (main_cmd argv = "reboot" <->
   resolve argv = Action (to_int LINUX_REBOOT_CMD_RESTART)) /\
  (main_cmd argv = "poweroff" <->
   resolve argv = Action (to_int LINUX_REBOOT_CMD_POWER_OFF)) /\
  (main_cmd argv = "halt" <->
   resolve argv = Action (to_int LINUX_REBOOT_CMD_HALT)) /\
  (forall c, resolve argv = Action c -> is_action_name (main_cmd argv)) /\
  (forall a1, arg argv 1 = Some a1 -> is_action_name a1 -> main_cmd argv = a1) /\
  (arg argv 1 = None -> main_cmd argv = base_name (main_argv0 argv)).
Proof.
  unfold resolve. repeat split.
  - intros ->. reflexivity.
  - intros H. apply main_dispatch_action in H. simpl in H.
    destruct H as [H|[H|[H|[]]]]; inversion H; auto; discriminate.
  - intros ->. reflexivity.
  - intros H. apply main_dispatch_action in H. simpl in H.
    destruct H as [H|[H|[H|[]]]]; inversion H; auto; discriminate.
  - intros ->. reflexivity.
  - intros H. apply main_dispatch_action in H. simpl in H.
    destruct H as [H|[H|[H|[]]]]; inversion H; auto; discriminate.
  - intros c H. apply main_dispatch_action in H. simpl in H.
    unfold is_action_name.
    destruct H as [H|[H|[H|[]]]]; inversion H; auto.
  - intros a1 A N. apply main_cmd_first_argument; [exact A|].
    now apply action_name_no_dash.
  - apply main_cmd_no_argument.
Qed.

Lemma resolve_action_names_witness :
  resolve [Some "raven-powerctl"; Some "reboot"] =
    Action (to_int LINUX_REBOOT_CMD_RESTART) /\
  main_cmd [Some "/usr/sbin/poweroff"] = "poweroff" /\
  is_action_name (main_cmd [Some "/sbin/halt"]) /\
  main_cmd [Some "/sbin/halt"; Some "poweroff"] = "poweroff" /\
  main_cmd [Some "/sbin/halt"] = base_name (main_argv0 [Some "/sbin/halt"]).
Proof.
  split; [|split; [|split; [|split]]].
  - apply (proj1 (resolve_action_names [Some "raven-powerctl"; Some "reboot"])).
    reflexivity.
  - apply (proj1 (proj2 (resolve_action_names [Some "/usr/sbin/poweroff"]))).
    reflexivity.
  - apply (proj1 (proj2 (proj2 (proj2 (resolve_action_names [Some "/sbin/halt"]))))
             (to_int LINUX_REBOOT_CMD_HALT)).
    reflexivity.
  - apply (proj1 (proj2 (proj2 (proj2 (proj2
             (resolve_action_names [Some "/sbin/halt"; Some "poweroff"])))))
             "poweroff"); [reflexivity|].
    right. left. reflexivity.
  - apply (proj2 (proj2 (proj2 (proj2 (proj2
             (resolve_action_names [Some "/sbin/halt"])))))).
    reflexivity.
Defined.

Example resolve_is_case_sensitive :
  resolve [Some "raven-powerctl"; Some "Reboot"] = UsageError /\
  resolve [Some "/sbin/HALT"] = UsageError /\
  resolve [Some "raven-powerctl"; Some "reboot "] = UsageError.
Proof. repeat split. Qed.

(** ** The action invoker and the result reporter *)

Lemma append_inv_head (s a b : string) : s ++ a = s ++ b -> a = b.
Proof.
  induction s as [|x s IH]; simpl; intros H; [exact H|].
  inversion H. auto.
Qed.

Lemma root_hint_not_failure_text (name description : string) :
  root_hint name <> failure_text name description.
Proof.
  unfold root_hint, failure_text. intros H.
  apply append_inv_head in H. discriminate.
Qed.

Lemma missing_argv0_name (argv : argv_t) :
  argv = [] \/ arg argv 0 = None -> main_argv0 argv = "raven-powerctl".
Proof.
  intros [->|H]; [reflexivity|].
  unfold main_argv0. rewrite H. now destruct (0 <? argc argv).
Qed.

Lemma missing_argv0_cmd (argv : argv_t) :
  argv = [] \/ arg argv 0 = None ->
  main_cmd argv = main_cmd (Some "raven-powerctl" :: tl argv).
Proof.
  intros H. pose proof (missing_argv0_name argv H) as N.
  unfold main_cmd, main_name. rewrite N.
  destruct argv as [|a0 rest]; [reflexivity|].
  destruct H as [H|H]; [discriminate|]. reflexivity.
Qed.

Section Contract.

Variable kernel_reboot : Z -> Z -> Z -> Z -> sys_result.
Variable strerror : Z -> string.

#[local] Abbreviation run' := (run kernel_reboot strerror).
#[local] Abbreviation exit_status' := (exit_status kernel_reboot strerror).
#[local] Abbreviation events' := (events kernel_reboot strerror).
#[local] Abbreviation answer c :=
  (kernel_reboot LINUX_REBOOT_MAGIC1 LINUX_REBOOT_MAGIC2 c 0).

Lemma run_help (argv : argv_t) :
  is_help_name (main_cmd argv) ->
  run' argv =
  (0, {| trace := [Fprintf stdout (usage_text (main_argv0 argv))]; errno := 0 |}).
Proof.
  intros H. rewrite run_cases. unfold resolve.
  now rewrite (proj2 (main_dispatch_help _) H).
Qed.

Lemma run_usage_error (argv : argv_t) :
  resolve argv = UsageError ->
  run' argv =
  (2, {| trace := [Fprintf stderr (usage_text (main_argv0 argv))]; errno := 0 |}).
Proof. intros H. rewrite run_cases. now rewrite H. Qed.

Lemma run_action (argv : argv_t) (c : Z) :
  In (main_cmd argv, c) action_names ->
  run' argv =
  match answer c with
  | SysReturn rc =>
      if rc =? 0
      then (0, {| trace := [Sync; Sync; reboot_call c]; errno := 0 |})
      else (1, {| trace := [Sync; Sync; reboot_call c;
                            Fprintf stderr
                              (failure_text (main_name argv) (strerror 0))];
                  errno := 0 |})
  | SysError e =>
      (1, {| trace := [Sync; Sync; reboot_call c;
                       Fprintf stderr
                         (failure_text (main_name argv) (strerror e))]
                      ++ (if e =? EPERM
                          then [Fprintf stderr (root_hint (main_name argv))]
                          else []);
             errno := e |})
  end.
Proof.
  intros H. rewrite run_cases. unfold resolve.
  now rewrite (proj2 (main_dispatch_action _ _) H).
Qed.

(** C6: [do_reboot] flushes exactly twice, then issues the reboot request
    with the code it was given; it returns 0 when the call returns zero and
    -1 when the call returns anything else. *)
Theorem do_reboot_flushes_then_calls (cmd : Z) (w : world) :
  trace (snd (runState (do_reboot kernel_reboot cmd) w)) =
    (trace w ++
     [Sync; Sync; SysReboot LINUX_REBOOT_MAGIC1 LINUX_REBOOT_MAGIC2 cmd 0])%list /\
  fst (runState (do_reboot kernel_reboot cmd) w) =
    (if sys_rc (answer cmd) =? 0 then 0 else -1).
Proof.
  rewrite do_reboot_run. cbv zeta. unfold reboot_call.
  destruct (answer cmd) as [rc|e]; simpl; [|split; reflexivity].
  destruct (rc =? 0); split; reflexivity.
Qed.

(** C1: the exit status is 0 for a help request and for an action whose
    reboot call succeeds, 2 for a name that is neither an action nor a help
    request, and 1 for an action whose reboot call fails; a successful
    action prints nothing. *)
Theorem exit_status_contract (argv : argv_t) :
  (is_help_name (main_cmd argv) -> exit_status' argv = 0) /\
  (~ is_action_name (main_cmd argv) -> ~ is_help_name (main_cmd argv) ->
   exit_status' argv = 2) /\
  (forall c, In (main_cmd argv, c) action_names ->
     (sys_rc (answer c) = 0 ->
      exit_status' argv = 0 /\
      forall out, written out (events' argv) = []) /\
     (sys_rc (answer c) <> 0 -> exit_status' argv = 1)).
Proof.
  unfold exit_status, events. split; [|split].
  - intros H. now rewrite (run_help argv H).
  - intros A B. rewrite run_usage_error; [reflexivity|].
    now apply main_dispatch_usage.
  - intros c H. rewrite (run_action argv c H).
    destruct (answer c) as [rc|e]; simpl.
    + destruct (Z.eqb_spec rc 0); split; intros; try contradiction; try lia.
      * split; [reflexivity|]. intros []; reflexivity.
      * reflexivity.
    + split; [discriminate|reflexivity].
Qed.

(** C7: after a failed reboot call the program prints, on standard error,
    the line with the program name, the fixed message and the description
    of the error, and exits with status 1; the root hint follows exactly
    when the error code is [EPERM]. *)
Theorem failure_report (argv : argv_t) (c : Z) :
  In (main_cmd argv, c) action_names ->
  sys_rc (answer c) <> 0 ->
  let name := main_name argv in
  let e := errno (snd (run' argv)) in
  (forall e', answer c = SysError e' -> e = e') /\
  exit_status' argv = 1 /\
  written stdout (events' argv) = [] /\
  written stderr (events' argv) =
    failure_text name (strerror e) ::
    (if e =? EPERM then [root_hint name] else []) /\
  (In (root_hint name) (written stderr (events' argv)) <-> e = EPERM).
Proof.
  intros H F. unfold exit_status, events. rewrite (run_action argv c H).
  destruct (answer c) as [rc|e]; simpl in *.
  - destruct (Z.eqb_spec rc 0); [contradiction|]. simpl.
    repeat split; try discriminate.
    intros [D|[]]. symmetry in D. now apply root_hint_not_failure_text in D.
  - split; [intros e' E; now inversion E|].
    destruct (Z.eqb_spec e EPERM) as [->|N]; simpl; repeat split; auto.
    intros [D|[]]. symmetry in D. now apply root_hint_not_failure_text in D.
Qed.

(** C9: a help request and an invalid command print the usage message and
    do nothing else; a flush or a reboot call occurs only when the resolved
    name is [reboot], [poweroff] or [halt]. *)
Theorem no_power_event_without_action (argv : argv_t) :
  (is_help_name (main_cmd argv) ->
   events' argv = [Fprintf stdout (usage_text (main_argv0 argv))]) /\
  (~ is_action_name (main_cmd argv) -> ~ is_help_name (main_cmd argv) ->
   events' argv = [Fprintf stderr (usage_text (main_argv0 argv))]) /\
  (existsb is_power_event (events' argv) = true ->
   is_action_name (main_cmd argv)).
Proof.
  unfold events. split; [|split].
  - intros H. now rewrite (run_help argv H).
  - intros A B. rewrite run_usage_error; [reflexivity|].
    now apply main_dispatch_usage.
  - rewrite run_cases. cbv zeta.
    destruct (resolve argv) as [c| |] eqn:R; simpl; try discriminate.
    intros _. unfold resolve in R. apply main_dispatch_action in R.
    unfold is_action_name. simpl in R.
    destruct R as [R|[R|[R|[]]]]; inversion R; auto.
Qed.

(** C10: when the argument vector is empty or argument zero is the null
    pointer, the program name is [raven-powerctl], and the whole run is the
    run with that name as argument zero. *)
Theorem missing_argv0_fallback (argv : argv_t) :
  argv = [] \/ arg argv 0 = None ->
  main_argv0 argv = "raven-powerctl" /\
  main_name argv = "raven-powerctl" /\
  run' argv = run' (Some "raven-powerctl" :: tl argv).
Proof.
  intros H. pose proof (missing_argv0_name argv H) as N.
  split; [exact N|]. split; [unfold main_name; now rewrite N|].
  rewrite !run_cases. unfold resolve, main_name.
  rewrite <- (missing_argv0_cmd argv H), N. reflexivity.
Qed.

(** C3 (amended): a first argument that does not begin with a dash and is
    not [reboot], [poweroff] or [halt] is a usage error whatever the
    invocation name; a first argument that begins with a dash (other than
    [-h] and [--help]) is skipped, so the outcome is a usage error exactly
    when the base name of the invocation path is neither an action name nor
    a help name; a usage error prints the usage message on standard error
    and exits with status 2. *)
Theorem usage_error_for_bad_argument (argv : argv_t) (a1 : string) :
  arg argv 1 = Some a1 ->
  (deref a1 <> "-"%char -> ~ is_action_name a1 -> resolve argv = UsageError) /\
  (deref a1 = "-"%char -> a1 <> "-h" -> a1 <> "--help" ->
   (resolve argv = UsageError <->
    ~ is_action_name (main_name argv) /\ ~ is_help_name (main_name argv))) /\
  (resolve argv = UsageError ->
   run' argv =
   (2, {| trace := [Fprintf stderr (usage_text (main_argv0 argv))];
          errno := 0 |})).
Proof.
  intros A. split; [|split].
  - intros D N. unfold resolve. rewrite (main_cmd_first_argument argv a1 A D).
    apply main_dispatch_usage. split; [exact N|].
    intros H. now apply help_name_dash in H.
  - intros D _ _. unfold resolve. rewrite (main_cmd_dash_argument argv a1 A D).
    apply main_dispatch_usage.
  - apply run_usage_error.
Qed.

(** C2: [-h] or [--help] given as first argument is meant to yield the
    usage message on standard output and exit status 0.  [main] skips a
    first argument that begins with a dash, so the help branch is not
    reached from there: run as [raven-powerctl] with [--help] or [-h] the
    usage message goes to standard error and the exit status is 2, and run
    as [reboot] the restart is selected. *)
Theorem help_flag_argument_is_skipped :
  run' [Some "raven-powerctl"; Some "--help"] =
    (2, {| trace := [Fprintf stderr (usage_text "raven-powerctl")];
           errno := 0 |}) /\
  run' [Some "raven-powerctl"; Some "-h"] =
    (2, {| trace := [Fprintf stderr (usage_text "raven-powerctl")];
           errno := 0 |}) /\
  resolve [Some "/sbin/reboot"; Some "--help"] =
    Action (to_int LINUX_REBOOT_CMD_RESTART).
Proof. split; [|split]; reflexivity. Qed.

End Contract.

(** ** Concrete runs *)

(** C3: run as [reboot] with the first argument [-x], which begins with a
    dash and is neither [-h] nor [--help], the resolver selects the restart
    and the program exits with status 0 after the reboot call. *)
Lemma dash_argument_keeps_invocation_name :
  arg [Some "reboot"; Some "-x"] 1 = Some "-x" /\
  deref "-x" = "-"%char /\ "-x" <> "-h" /\ "-x" <> "--help" /\
  resolve [Some "reboot"; Some "-x"] = Action (to_int LINUX_REBOOT_CMD_RESTART) /\
  resolve [Some "reboot"; Some "-x"] <> UsageError /\
  run kernel_ok strerror_linux [Some "reboot"; Some "-x"] =
    (0, {| trace := [Sync; Sync; reboot_call (to_int LINUX_REBOOT_CMD_RESTART)];
           errno := 0 |}).
Proof. repeat split; discriminate. Qed.

Lemma usage_error_for_bad_argument_witness :
  resolve [Some "raven-powerctl"; Some "bogus"] = UsageError /\
  (resolve [Some "/sbin/halt"; Some "-x"] = UsageError <->
   ~ is_action_name (main_name [Some "/sbin/halt"; Some "-x"]) /\
   ~ is_help_name (main_name [Some "/sbin/halt"; Some "-x"])) /\
  run kernel_ok strerror_linux [Some "raven-powerctl"; Some "bogus"] =
    (2, {| trace := [Fprintf stderr (usage_text "raven-powerctl")];
           errno := 0 |}).
Proof.
  split; [|split].
  - apply (proj1 (usage_error_for_bad_argument kernel_ok strerror_linux
                    [Some "raven-powerctl"; Some "bogus"] "bogus" eq_refl)).
    + discriminate.
    + intros [H|[H|H]]; discriminate.
  - apply (proj1 (proj2 (usage_error_for_bad_argument kernel_ok strerror_linux
                           [Some "/sbin/halt"; Some "-x"] "-x" eq_refl)));
      [reflexivity | discriminate | discriminate].
  - apply (proj2 (proj2 (usage_error_for_bad_argument kernel_ok strerror_linux
                           [Some "raven-powerctl"; Some "bogus"] "bogus" eq_refl))).
    reflexivity.
Defined.

Lemma exit_status_contract_witness :
  exit_status kernel_ok strerror_linux [Some "--help"] = 0 /\
  exit_status kernel_ok strerror_linux [Some "raven-powerctl"] = 2 /\
  (exit_status kernel_ok strerror_linux [Some "poweroff"] = 0 /\
   forall out, written out (events kernel_ok strerror_linux [Some "poweroff"]) = []) /\
  exit_status (kernel_fails EPERM) strerror_linux [Some "poweroff"] = 1.
Proof.
  split; [|split; [|split]].
  - apply (proj1 (exit_status_contract kernel_ok strerror_linux [Some "--help"])).
    right. reflexivity.
  - apply (proj1 (proj2 (exit_status_contract kernel_ok strerror_linux
                           [Some "raven-powerctl"]))).
    + intros [H|[H|H]]; discriminate.
    + intros [H|H]; discriminate.
  - apply (proj1 (proj2 (proj2 (exit_status_contract kernel_ok strerror_linux
                                  [Some "poweroff"]))
                    (to_int LINUX_REBOOT_CMD_POWER_OFF)
                    (or_intror (or_introl eq_refl)))).
    reflexivity.
  - apply (proj2 (proj2 (proj2 (exit_status_contract (kernel_fails EPERM)
                                  strerror_linux [Some "poweroff"]))
                    (to_int LINUX_REBOOT_CMD_POWER_OFF)
                    (or_intror (or_introl eq_refl)))).
    discriminate.
Defined.

Lemma failure_report_witness :
  exit_status (kernel_fails EPERM) strerror_linux [Some "/sbin/reboot"] = 1 /\
  written stderr (events (kernel_fails EPERM) strerror_linux [Some "/sbin/reboot"]) =
    [ failure_text "reboot" "Operation not permitted"; root_hint "reboot" ] /\
  written stderr (events (kernel_fails 22) strerror_linux [Some "/sbin/reboot"]) =
    [ failure_text "reboot" "Invalid argument" ].
Proof.
  assert (A : In (main_cmd [Some "/sbin/reboot"], to_int LINUX_REBOOT_CMD_RESTART)
                 action_names) by (left; reflexivity).
  assert (F : forall e, sys_rc (kernel_fails e LINUX_REBOOT_MAGIC1
                                  LINUX_REBOOT_MAGIC2
                                  (to_int LINUX_REBOOT_CMD_RESTART) 0) <> 0)
    by (intros e; discriminate).
  destruct (failure_report (kernel_fails EPERM) strerror_linux
              [Some "/sbin/reboot"] _ A (F EPERM)) as (_ & E & _ & W & _).
  destruct (failure_report (kernel_fails 22) strerror_linux
              [Some "/sbin/reboot"] _ A (F 22)) as (_ & _ & _ & W' & _).
  split; [exact E|]. split; [exact W | exact W'].
Defined.

Lemma no_power_event_without_action_witness :
  events kernel_ok strerror_linux [Some "-h"] =
    [Fprintf stdout (usage_text "-h")] /\
  events kernel_ok strerror_linux [Some "raven-powerctl"; Some "bogus"] =
    [Fprintf stderr (usage_text "raven-powerctl")] /\
  is_action_name (main_cmd [Some "halt"]).
Proof.
  split; [|split].
  - apply (proj1 (no_power_event_without_action kernel_ok strerror_linux
                    [Some "-h"])).
    left. reflexivity.
  - apply (proj1 (proj2 (no_power_event_without_action kernel_ok strerror_linux
                           [Some "raven-powerctl"; Some "bogus"]))).
    + intros [H|[H|H]]; discriminate.
    + intros [H|H]; discriminate.
  - apply (proj2 (proj2 (no_power_event_without_action kernel_ok strerror_linux
                           [Some "halt"]))).
    reflexivity.
Defined.

Lemma missing_argv0_fallback_witness :
  (main_argv0 [] = "raven-powerctl" /\
   main_name [] = "raven-powerctl" /\
   run kernel_ok strerror_linux [] =
   run kernel_ok strerror_linux [Some "raven-powerctl"]) /\
  (main_argv0 [None; Some "halt"] = "raven-powerctl" /\
   main_name [None; Some "halt"] = "raven-powerctl" /\
   run (kernel_fails EPERM) strerror_linux [None; Some "halt"] =
   run (kernel_fails EPERM) strerror_linux [Some "raven-powerctl"; Some "halt"]).
Proof.
  split.
  - apply (missing_argv0_fallback kernel_ok strerror_linux []).
    left. reflexivity.
  - apply (missing_argv0_fallback (kernel_fails EPERM) strerror_linux
             [None; Some "halt"]).
    right. reflexivity.
Defined.

Example run_without_argv0 :
  run kernel_ok strerror_linux [] =
    (2, {| trace := [Fprintf stderr (usage_text "raven-powerctl")]; errno := 0 |}) /\
  run (kernel_fails EPERM) strerror_linux [None; Some "halt"] =
    (1, {| trace := [Sync; Sync; reboot_call (to_int LINUX_REBOOT_CMD_HALT);
                     Fprintf stderr
                       (failure_text "raven-powerctl" "Operation not permitted");
                     Fprintf stderr (root_hint "raven-powerctl")];
           errno := EPERM |}).
Proof. split; reflexivity. Qed.

Example to_int_codes :
  to_int LINUX_REBOOT_CMD_RESTART = 19088743 /\
  to_int LINUX_REBOOT_CMD_POWER_OFF = 1126301404 /\
  to_int LINUX_REBOOT_CMD_HALT = -839974621.
Proof. repeat split. Qed.

(** ** Further properties of [base_name] *)

Lemma append_assoc (a b c : string) : (a ++ b) ++ c = a ++ b ++ c.
Proof. induction a as [|x a IH]; simpl; [reflexivity|now rewrite IH]. Qed.

Lemma base_name_suffix (path : string) :
  exists pre, path = pre ++ base_name path.
Proof.
  destruct (mem_char "/" path) eqn:M.
  - destruct (base_name_split path M) as (pre & E & _).
    exists (pre ++ "/"). rewrite append_assoc. exact E.
  - exists "". now rewrite (base_name_no_slash path M).
Qed.

Lemma base_name_slash_free (path : string) :
  mem_char "/" (base_name path) = false.
Proof.
  destruct (mem_char "/" path) eqn:M.
  - now destruct (base_name_split path M) as (pre & _ & F).
  - now rewrite (base_name_no_slash path M).
Qed.

(** X6: the result of [base_name] is a suffix of its argument without any
    slash, and applying [base_name] again changes nothing. *)
Theorem base_name_idempotent (path : string) :
  (exists pre, path = pre ++ base_name path) /\
  mem_char "/" (base_name path) = false /\
  base_name (base_name path) = base_name path.
Proof.
  split; [apply base_name_suffix|]. split; [apply base_name_slash_free|].
  apply base_name_no_slash, base_name_slash_free.
Qed.

(** X7: [base_name] is empty exactly for the empty path and for a path that
    ends with a slash. *)
Theorem base_name_empty_iff (path : string) :
  base_name path = "" <-> path = "" \/ exists dir, path = dir ++ "/".
Proof.
  split.
  - intros E. destruct (mem_char "/" path) eqn:M.
    + right. destruct (base_name_split path M) as (pre & P & _).
      rewrite E in P. exists pre. exact P.
    + left. now rewrite <- (base_name_no_slash path M).
  - intros [->|(dir & ->)]; [reflexivity|].
    apply (base_name_after_last_slash dir ""). reflexivity.
Qed.

Example base_name_edges :
  base_name "" = "" /\ base_name "/" = "" /\ base_name "/sbin/" = "" /\
  base_name "//halt" = "halt" /\ base_name "a/b/../reboot" = "reboot".
Proof. repeat split. Qed.

(** ** Further properties of [do_reboot] and [main] *)

Lemma written_app (out : stream) (t u : list event) :
  written out (t ++ u) = (written out t ++ written out u)%list.
Proof. unfold written. apply flat_map_app. Qed.

Lemma main_argv0_cons (a0 : option string) (rest : argv_t) :
  main_argv0 (a0 :: rest) =
  match a0 with Some a => a | None => "raven-powerctl" end.
Proof.
  unfold main_argv0, argc. simpl length.
  destruct (Z.ltb_spec 0 (Z.of_nat (S (length rest)))); [reflexivity|lia].
Qed.

Lemma main_cmd_cons2 (a0 a1 : option string) (rest : argv_t) :
  main_cmd (a0 :: a1 :: rest) =
  match a1 with
  | Some s => if negb (Ascii.eqb (deref s) "-") then s
              else main_name (a0 :: a1 :: rest)
  | None => main_name (a0 :: a1 :: rest)
  end.
Proof.
  unfold main_cmd, argc. simpl length.
  destruct (Z.leb_spec 2 (Z.of_nat (S (S (length rest))))); [reflexivity|lia].
Qed.

Lemma main_name_cons (a0 : option string) (rest rest' : argv_t) :
  main_name (a0 :: rest) = main_name (a0 :: rest').
Proof. unfold main_name. now rewrite !main_argv0_cons. Qed.

Section Behaviour.

Variable kernel_reboot : Z -> Z -> Z -> Z -> sys_result.
Variable strerror : Z -> string.

#[local] Abbreviation run' := (run kernel_reboot strerror).
#[local] Abbreviation exit_status' := (exit_status kernel_reboot strerror).
#[local] Abbreviation events' := (events kernel_reboot strerror).
#[local] Abbreviation answer c :=
  (kernel_reboot LINUX_REBOOT_MAGIC1 LINUX_REBOOT_MAGIC2 c 0).

(** Two argument vectors with the same argument zero and the same resolved
    name give the same run. *)
Lemma run_congruence (a0 : option string) (rest rest' : argv_t) :
  main_cmd (a0 :: rest) = main_cmd (a0 :: rest') ->
  run' (a0 :: rest) = run' (a0 :: rest').
Proof.
  intros E. rewrite !run_cases. unfold resolve.
  now rewrite E, (main_name_cons a0 rest rest'), !main_argv0_cons.
Qed.

(** X1: whatever the arguments and the kernel's answer, the exit status is
    0, 1 or 2. *)
Theorem exit_status_range (argv : argv_t) :
  exit_status' argv = 0 \/ exit_status' argv = 1 \/ exit_status' argv = 2.
Proof.
  unfold exit_status. rewrite run_cases. cbv zeta.
  destruct (resolve argv) as [c| |]; simpl; auto.
  destruct (answer c) as [rc|e]; simpl; auto.
  destruct (rc =? 0); simpl; auto.
Qed.


(** X3: standard output is written exactly when the resolved name is [-h]
    or [--help], and then it receives the usage message alone; everything
    else that is printed goes to standard error. *)
Theorem stdout_only_for_help (argv : argv_t) :
  (written stdout (events' argv) <> [] <-> is_help_name (main_cmd argv)) /\
  (written stdout (events' argv) = [] \/
   written stdout (events' argv) = [usage_text (main_argv0 argv)]).
Proof.
  unfold events. rewrite run_cases. cbv zeta.
  destruct (resolve argv) as [c| |] eqn:R; unfold resolve in R.
  - assert (N : ~ is_help_name (main_cmd argv)).
    { intros H. apply main_dispatch_help in H. congruence. }
    destruct (answer c) as [rc|e]; simpl.
    + destruct (rc =? 0); simpl; (split; [split; tauto | auto]).
    + destruct (e =? EPERM); simpl; (split; [split; tauto | auto]).
  - apply main_dispatch_help in R. simpl.
    split; [split; [auto | discriminate] | auto].
  - assert (N : ~ is_help_name (main_cmd argv)).
    { intros H. apply main_dispatch_help in H. congruence. }
    simpl. split; [split; tauto | auto].
Qed.

(** X4: arguments after the first are ignored: the run is the run with
    argument zero and the first argument only. *)
Theorem extra_arguments_ignored (a0 a1 : option string) (rest : argv_t) :
  run' (a0 :: a1 :: rest) = run' [a0; a1].
Proof.
  apply run_congruence. rewrite !main_cmd_cons2.
  now rewrite (main_name_cons a0 (a1 :: rest) [a1]).
Qed.

(** X5: a first argument that is the null pointer, or that begins with a
    dash and is neither [-h] nor [--help], is skipped together with all
    that follows: the run is the run with argument zero alone. *)
Theorem skipped_first_argument (a0 a1 : option string) (rest : argv_t) :
  a1 = None \/
  (exists s, a1 = Some s /\ deref s = "-"%char /\ s <> "-h" /\ s <> "--help") ->
  run' (a0 :: a1 :: rest) = run' [a0].
Proof.
  intros H. apply run_congruence. rewrite main_cmd_cons2.
  assert (E : main_cmd [a0] = main_name (a0 :: a1 :: rest)).
  { rewrite (main_name_cons a0 (a1 :: rest) []). reflexivity. }
  rewrite E. destruct H as [->|(s & -> & D & _)]; [reflexivity|].
  now rewrite D.
Qed.

(** X8: [do_reboot] prints nothing; it leaves [errno] alone when the reboot
    call returns a value, and when the call fails it returns -1 with the
    kernel's error code in [errno]. *)
Theorem do_reboot_errno (cmd : Z) (w : world) :
  let r := runState (do_reboot kernel_reboot cmd) w in
  (forall out, written out (trace (snd r)) = written out (trace w)) /\
  match answer cmd with
  | SysReturn _ => errno (snd r) = errno w
  | SysError e => errno (snd r) = e /\ fst r = -1
  end.
Proof.
  cbv zeta. rewrite do_reboot_run. cbv zeta.
  destruct (answer cmd) as [rc|e]; simpl; (split; [|auto]);
    intros out; rewrite written_app; simpl; apply app_nil_r.
Qed.

End Behaviour.

Lemma skipped_first_argument_witness :
  run kernel_ok strerror_linux [Some "/sbin/halt"; Some "-f"; Some "now"] =
  run kernel_ok strerror_linux [Some "/sbin/halt"] /\
  run (kernel_fails EPERM) strerror_linux [Some "/sbin/halt"; None] =
  run (kernel_fails EPERM) strerror_linux [Some "/sbin/halt"].
Proof.
  split.
  - apply (skipped_first_argument kernel_ok strerror_linux
             (Some "/sbin/halt") (Some "-f") [Some "now"]).
    right. exists "-f". split; [reflexivity|]. split; [reflexivity|].
    split; discriminate.
  - apply (skipped_first_argument (kernel_fails EPERM) strerror_linux
             (Some "/sbin/halt") None []).
    left. reflexivity.
Defined.

Example run_with_extra_arguments :
  run kernel_ok strerror_linux [Some "raven-powerctl"; Some "reboot"; Some "now"] =
    (0, {| trace := [Sync; Sync; reboot_call (to_int LINUX_REBOOT_CMD_RESTART)];
           errno := 0 |}) /\
  run kernel_ok strerror_linux [Some "/sbin/reboot"; Some ""] =
    (2, {| trace := [Fprintf stderr (usage_text "/sbin/reboot")]; errno := 0 |}).
Proof. split; reflexivity. Qed.
